(** * chanrpc: the channel RPC core of leaf (chanrpc/chanrpc.go)

    A shallow embedding of the Server, the Dispatcher ([Exec]) and the Client
    of [chanrpc.go], and the properties of its specification.

    Go values of type [interface{}] are the inductive [value]; a function
    value is its static type and a code address, and the bodies live in a
    code table ([env]).  Channels are bounded FIFO buffers with a closed
    flag.  Every method is a function on the [world] (the Server, the
    Clients' return channels and a log of the bodies and callbacks that
    ran) whose [outcome] is a normal return, a panic, or a thread parked on
    a channel operation. *)

From stdpp Require Import gmap strings list fin_maps.
From Stdlib Require Import ZArith Lia.

#[local] Set Warnings "-register-all".

(** ** Values *)

(** The function types the code switches on. *)
Inductive functype : Type :=
| FuncNone    (* func([]interface{})               *)
| FuncOne     (* func([]interface{}) interface{}   *)
| FuncSeq     (* func([]interface{}) []interface{} *)
| CbErr       (* func(error)                       *)
| CbOne       (* func(interface{}, error)          *)
| CbSeq       (* func([]interface{}, error)        *)
| FuncOther.  (* a function of any other type      *)

(** What an [interface{}] holds.  [VNil] is the nil interface; a nil slice of
    type [[]interface{}] is [VSlice []], which is not [VNil]. *)
Inductive value : Type :=
| VNil
| VInt (z : Z)
| VStr (s : string)
| VErr (msg : string)
| VSlice (l : list value)
| VFunc (t : functype) (p : nat).

(** Registry keys: the comparable values (a Go map panics on the others). *)
Inductive ident : Type :=
| IdNil
| IdInt (z : Z)
| IdStr (s : string).

#[global] Instance ident_eq_dec : EqDecision ident.
Proof. solve_decision. Defined.

#[global] Instance ident_countable : Countable ident.
Proof.
  refine (inj_countable'
    (fun i => match i with
              | IdNil => inl tt
              | IdInt z => inr (inl z)
              | IdStr s => inr (inr s)
              end)
    (fun x => match x with
              | inl _ => IdNil
              | inr (inl z) => IdInt z
              | inr (inr s) => IdStr s
              end) _).
  intros []; reflexivity.
Defined.

Definition ident_value (i : ident) : value :=
  match i with
  | IdNil => VNil
  | IdInt z => VInt z
  | IdStr s => VStr s
  end.

(** A Go [error]: nil, or an error with its message. *)
Definition error : Type := option string.

(** The payload of a panic, as [recover()] yields it while panicking (never
    nil: a [panic(nil)] reaches [recover] as a [*runtime.PanicNilError]). *)
Inductive fault : Type :=
| FStr (s : string)    (* panic("...") *)
| FErr (msg : string)  (* a value that implements error, e.g. a runtime.Error *)
| FVal (v : value).    (* any other payload *)

(** How a function body ends. *)
Inductive res (A : Type) : Type :=
| Returns (a : A)
| Panics (r : fault).
Arguments Returns {A} a.
Arguments Panics {A} r.

(** ** Envelopes, channels, Server, Client *)

Record CallInfo : Type := mkCallInfo {
  ci_f : value;
  ci_args : list value;
  ci_chanRet : option nat;   (* nil, or a reference to a return channel *)
  ci_cb : value }.

Record RetInfo : Type := mkRetInfo {
  ri_ret : value;
  ri_err : error;
  ri_cb : value }.

(** [make(chan T, cap)]: the buffered elements, oldest first. *)
Record chan (A : Type) : Type := mkChan {
  buf : list A;
  cap : nat;
  closed : bool }.
Arguments mkChan {A} buf cap closed.
Arguments buf {A} c.
Arguments cap {A} c.
Arguments closed {A} c.

Record Server : Type := mkServer {
  functions : gmap ident value;
  ChanCall : chan CallInfo }.

(** A Client of the world's Server; its two channels are references into
    the heap of return channels. *)
Record Client : Type := mkClient {
  chanSyncRet : nat;
  ChanAsynRet : nat;
  pendingAsynCall : Z }.

(** What ran, in order: operation bodies (by the Dispatcher) and callbacks
    (by a Client).  An error-only callback has no result argument. *)
Inductive event : Type :=
| Ran (f : value) (args : list value)
| Called (cb : value) (ret : option value) (err : error).

Record world : Type := mkWorld {
  srv : Server;
  heap : gmap nat (chan RetInfo);
  log : list event }.

Definition set_functions (m : gmap ident value) (w : world) : world :=
  mkWorld (mkServer m (ChanCall (srv w))) (heap w) (log w).
Definition set_ChanCall (q : chan CallInfo) (w : world) : world :=
  mkWorld (mkServer (functions (srv w)) q) (heap w) (log w).
Definition set_heap (h : gmap nat (chan RetInfo)) (w : world) : world :=
  mkWorld (srv w) h (log w).
Definition add_log (e : event) (w : world) : world :=
  mkWorld (srv w) (heap w) (log w ++ [e]).

(** ** The code table and the configuration *)

Record env : Type := mkEnv {
  body0 : nat -> list value -> res unit;          (* bodies of FuncNone *)
  body1 : nat -> list value -> res value;         (* bodies of FuncOne  *)
  bodyN : nat -> list value -> res (list value);  (* bodies of FuncSeq  *)
  fmt_v : value -> string;                        (* fmt's %v           *)
  LenStackBuf : Z;                                (* conf.LenStackBuf   *)
  stack : CallInfo -> string }.                   (* the trace runtime.Stack formats *)

(** ** Go's int *)

Definition int_wrap (z : Z) : Z := ((z + 2 ^ 63) mod 2 ^ 64 - 2 ^ 63)%Z.
Definition int_add (a b : Z) : Z := int_wrap (a + b).
Definition int_sub (a b : Z) : Z := int_wrap (a - b).

(** ** Outcomes *)

Inductive outcome (A : Type) : Type :=
| Done (a : A) (w : world)      (* returned *)
| Panic (r : fault) (w : world) (* a panic left the function *)
| Blocked (w : world).          (* parked on a channel operation *)
Arguments Done {A} a w.
Arguments Panic {A} r w.
Arguments Blocked {A} w.

Definition M (A : Type) : Type := world -> outcome A.

Definition unit_ {A} (a : A) : M A := fun w => Done a w.

Definition bind {A B} (m : M A) (k : A -> M B) : M B := fun w =>
  match m w with
  | Done a w' => k a w'
  | Panic r w' => Panic r w'
  | Blocked w' => Blocked w'
  end.

Definition panic {A} (r : fault) : M A := fun w => Panic r w.

(** [defer func() { if r := recover(); r != nil { ... } }()]: the handler
    runs on the payload of a panic of the body and its result is the
    function's. *)
Definition recover {A} (m : M A) (h : fault -> M A) : M A := fun w =>
  match m w with
  | Done a w' => Done a w'
  | Panic r w' => h r w'
  | Blocked w' => Blocked w'
  end.

Declare Scope go_scope.
Delimit Scope go_scope with go.
Notation "x <- m ;; k" := (bind m (fun x => k))
  (at level 100, m at next level, right associativity) : go_scope.
Notation "m ;;; k" := (bind m (fun _ => k))
  (at level 100, right associativity) : go_scope.
Local Open Scope go_scope.

(** ** Channel operations *)

Inductive sent (A : Type) : Type :=
| Sent (c : chan A)
| Full
| SendOnClosed.
Arguments Sent {A} c.
Arguments Full {A}.
Arguments SendOnClosed {A}.

(** [c <- x].  A channel of capacity 0 hands over only to a receiver that
    is already waiting; within one thread's run there is none. *)
Definition chan_send {A} (c : chan A) (x : A) : sent A :=
  if closed c then SendOnClosed
  else if (length (buf c) <? cap c)%nat
       then Sent (mkChan (buf c ++ [x]) (cap c) (closed c))
       else Full.

Inductive received (A : Type) : Type :=
| Got (x : A) (c : chan A)
| Empty
| Drained.   (* closed and empty: the receive yields the zero value *)
Arguments Got {A} x c.
Arguments Empty {A}.
Arguments Drained {A}.

(** [<-c] *)
Definition chan_recv {A} (c : chan A) : received A :=
  match buf c with
  | x :: q => Got x (mkChan q (cap c) (closed c))
  | [] => if closed c then Drained else Empty
  end.

Definition chan_close {A} (c : chan A) : chan A := mkChan (buf c) (cap c) true.

Definition send_on_closed : fault := FErr "send on closed channel".
Definition nil_dereference : fault :=
  FErr "runtime error: invalid memory address or nil pointer dereference".
Definition bad_assertion : fault := FErr "interface conversion".

(** [ch <- ri] on a return channel of the heap, blocking. *)
Definition send_ret (ch : nat) (ri : RetInfo) : M unit := fun w =>
  match heap w !! ch with
  | None => Blocked w
  | Some c =>
      match chan_send c ri with
      | Sent c' => Done tt (set_heap (<[ch := c']> (heap w)) w)
      | Full => Blocked w
      | SendOnClosed => Panic send_on_closed w
      end
  end.

(** [<-ch] on a return channel of the heap: the pointer received, nil
    ([None]) from a closed and empty channel. *)
Definition recv_ret (ch : nat) : M (option RetInfo) := fun w =>
  match heap w !! ch with
  | None => Blocked w
  | Some c =>
      match chan_recv c with
      | Got ri c' => Done (Some ri) (set_heap (<[ch := c']> (heap w)) w)
      | Empty => Blocked w
      | Drained => Done None w
      end
  end.

(** [r.(error)] in a deferred handler. *)
Definition assert_error (r : fault) : M error :=
  match r with
  | FErr msg => unit_ (Some msg)
  | _ => panic bad_assertion
  end.

(** [%v] of a panic payload. *)
Definition fault_msg (E : env) (r : fault) : string :=
  match r with
  | FStr s => s
  | FErr msg => msg
  | FVal v => fmt_v E v
  end.

(** [runtime.Stack(buf, false)] with [len(buf) = n]: the bytes written. *)
Definition runtime_Stack (n : nat) (trace : string) : string :=
  String.substring 0 n trace.

Section Chanrpc.

Variable E : env.

(** ** Server *)

(** Lines 43-48.  [make] panics on a negative size. *)
Definition NewServer (l : Z) : res Server :=
  if (l <? 0)%Z then Panics (FErr "makechan: size out of range")
  else Returns (mkServer ∅ (mkChan [] (Z.to_nat l) false)).

(** [s.functions[id]]: nil for a missing key. *)
Definition lookup_func (id : ident) (w : world) : value :=
  default VNil (functions (srv w) !! id).

(** Lines 51-65. *)
Definition Register (id : ident) (f : value) : M unit := fun w =>
  match f with
  | VFunc FuncNone _ | VFunc FuncOne _ | VFunc FuncSeq _ =>
      match functions (srv w) !! id with
      | Some _ =>
          Panic (FStr ("function id " +:+ fmt_v E (ident_value id)
                       +:+ ": already registered")) w
      | None => Done tt (set_functions (<[id := f]> (functions (srv w))) w)
      end
  | _ =>
      Panic (FStr ("function id " +:+ fmt_v E (ident_value id)
                   +:+ ": definition of function is invalid")) w
  end.

(** Lines 136-150. *)
Definition Server_ret (ci : CallInfo) (ri : RetInfo) : M error :=
  match ci_chanRet ci with
  | None => unit_ None
  | Some ch =>
      recover
        (send_ret ch (mkRetInfo (ri_ret ri) (ri_err ri) (ci_cb ci)) ;;; unit_ None)
        (fun r => assert_error r)
  end.

(** Running a body of the code table on the Dispatcher's thread. *)
Definition run {A} (ci : CallInfo) (b : res A) : M A := fun w =>
  match b with
  | Returns a => Done a (add_log (Ran (ci_f ci) (ci_args ci)) w)
  | Panics r => Panic r (add_log (Ran (ci_f ci) (ci_args ci)) w)
  end.

(** The error of lines 72-78. *)
Definition fault_error (ci : CallInfo) (r : fault) : string :=
  if (0 <? LenStackBuf E)%Z
  then fault_msg E r +:+ ": "
       +:+ runtime_Stack (Z.to_nat (LenStackBuf E)) (stack E ci)
  else fault_msg E r.

(** Lines 68-96. *)
Definition Exec (ci : CallInfo) : M error :=
  recover
    (match ci_f ci with
     | VFunc FuncNone p =>
         run ci (body0 E p (ci_args ci)) ;;;
         Server_ret ci (mkRetInfo VNil None VNil)
     | VFunc FuncOne p =>
         ret <- run ci (body1 E p (ci_args ci)) ;;
         Server_ret ci (mkRetInfo ret None VNil)
     | VFunc FuncSeq p =>
         ret <- run ci (bodyN E p (ci_args ci)) ;;
         Server_ret ci (mkRetInfo (VSlice ret) None VNil)
     | _ => panic (FStr "bug")
     end)
    (fun r =>
       let err := Some (fault_error ci r) in
       Server_ret ci (mkRetInfo VNil err VNil) ;;;
       unit_ err).

(** [s.ChanCall <- ci]: the push onto the Call Queue; [None] when the
    queue has no room. *)
Definition push_call (ci : CallInfo) : M (option unit) := fun w =>
  match chan_send (ChanCall (srv w)) ci with
  | Sent q => Done (Some tt) (set_ChanCall q w)
  | Full => Done None w
  | SendOnClosed => Panic send_on_closed w
  end.

(** A blocking push parks the thread while the queue is full. *)
Definition push_call_blocking (ci : CallInfo) : M unit :=
  sent <- push_call ci ;;
  match sent with
  | Some _ => unit_ tt
  | None => fun w => Blocked w
  end.

(** Lines 99-113. *)
Definition Go (id : ident) (args : list value) : M unit := fun w =>
  match lookup_func id w with
  | VNil => Done tt w
  | f =>
      recover (push_call_blocking (mkCallInfo f args None VNil))
              (fun _ => unit_ tt) w
  end.

Definition server_closed : error := Some "chanrpc server closed".

(** The loop of lines 119-123 over the envelopes resident in the closed
    queue (a closed channel takes no further send): each turn receives the
    oldest one and answers it. *)
Fixpoint drain (q : list CallInfo) : M unit :=
  match q with
  | [] => unit_ tt
  | ci :: q' =>
      (fun w => Done tt (set_ChanCall (mkChan q' (cap (ChanCall (srv w))) true) w)) ;;;
      Server_ret ci (mkRetInfo VNil server_closed VNil) ;;;
      drain q'
  end.

(** Lines 116-124.  [close] panics on a closed channel. *)
Definition Server_Close : M unit := fun w =>
  if closed (ChanCall (srv w)) then Panic (FErr "close of closed channel") w
  else drain (buf (ChanCall (srv w)))
             (set_ChanCall (chan_close (ChanCall (srv w))) w).

(** [make(chan *RetInfo, l)]: a new channel of the heap. *)
Definition make_chan (l : Z) : M nat := fun w =>
  if (l <? 0)%Z then Panic (FErr "makechan: size out of range") w
  else let ch := fresh (dom (heap w)) in
       Done ch (set_heap (<[ch := mkChan [] (Z.to_nat l) false]> (heap w)) w).

(** Lines 127-133. *)
Definition Open (l : Z) : M Client :=
  sync <- make_chan 1 ;;
  asyn <- make_chan l ;;
  unit_ (mkClient sync asyn 0).

(** ** Client *)

Definition has_type (t : functype) (v : value) : bool :=
  match v, t with
  | VFunc FuncNone _, FuncNone
  | VFunc FuncOne _, FuncOne
  | VFunc FuncSeq _, FuncSeq
  | VFunc CbErr _, CbErr
  | VFunc CbOne _, CbOne
  | VFunc CbSeq _, CbSeq
  | VFunc FuncOther _, FuncOther => true
  | _, _ => false
  end.

Definition not_registered (id : ident) : string :=
  "function id " +:+ fmt_v E (ident_value id) +:+ ": function not registered".
Definition type_mismatch (id : ident) : string :=
  "function id " +:+ fmt_v E (ident_value id) +:+ ": return type mismatch".

(** Lines 153-177. *)
Definition Client_f (id : ident) (n : Z) : M (value * error) := fun w =>
  let f := lookup_func id w in
  match f with
  | VNil => Done (f, Some (not_registered id)) w
  | _ =>
      (ok <- match n with
             | 0%Z => unit_ (has_type FuncNone f)
             | 1%Z => unit_ (has_type FuncOne f)
             | 2%Z => unit_ (has_type FuncSeq f)
             | _ => panic (FStr "bug")
             end ;;
       if ok : bool then unit_ (f, None)
       else unit_ (f, Some (type_mismatch id))) w
  end.

Definition channel_full : error := Some "chanrpc channel full".

(** Lines 180-198. *)
Definition Client_call (ci : CallInfo) (block : bool) : M error :=
  recover
    (if block
     then push_call_blocking ci ;;; unit_ None
     else sent <- push_call ci ;;
          match sent with
          | Some _ => unit_ None
          | None => unit_ channel_full
          end)
    (fun r => assert_error r).

(** While a thread is parked on a receive the other threads run: [sched]
    is what they do to the world in the meantime. *)
Definition yield (sched : world -> world) : M unit := fun w => Done tt (sched w).

(** [ri.ret], [ri.err] through the pointer received. *)
Definition deref (ri : option RetInfo) : M RetInfo :=
  match ri with
  | Some ri => unit_ ri
  | None => panic nil_dereference
  end.

(** [v.([]interface{})] *)
Definition assert_slice (v : value) : M (list value) :=
  match v with
  | VSlice l => unit_ l
  | _ => panic bad_assertion
  end.

(** Lines 204-222. *)
Definition Call0 (sched : world -> world) (c : Client) (id : ident)
    (args : list value) : M error :=
  fe <- Client_f id 0 ;;
  match snd fe with
  | Some e => unit_ (Some e)
  | None =>
      err <- Client_call (mkCallInfo (fst fe) args (Some (chanSyncRet c)) VNil) true ;;
      match err with
      | Some e => unit_ (Some e)
      | None =>
          yield sched ;;;
          p <- recv_ret (chanSyncRet c) ;;
          ri <- deref p ;;
          unit_ (ri_err ri)
      end
  end.

(** Lines 226-244. *)
Definition Call1 (sched : world -> world) (c : Client) (id : ident)
    (args : list value) : M (value * error) :=
  fe <- Client_f id 1 ;;
  match snd fe with
  | Some e => unit_ (VNil, Some e)
  | None =>
      err <- Client_call (mkCallInfo (fst fe) args (Some (chanSyncRet c)) VNil) true ;;
      match err with
      | Some e => unit_ (VNil, Some e)
      | None =>
          yield sched ;;;
          p <- recv_ret (chanSyncRet c) ;;
          ri <- deref p ;;
          unit_ (ri_ret ri, ri_err ri)
      end
  end.

(** Lines 248-266.  The nil slice returned on the early exits is [[]]. *)
Definition CallN (sched : world -> world) (c : Client) (id : ident)
    (args : list value) : M (list value * error) :=
  fe <- Client_f id 2 ;;
  match snd fe with
  | Some e => unit_ ([], Some e)
  | None =>
      err <- Client_call (mkCallInfo (fst fe) args (Some (chanSyncRet c)) VNil) true ;;
      match err with
      | Some e => unit_ ([], Some e)
      | None =>
          yield sched ;;;
          p <- recv_ret (chanSyncRet c) ;;
          ri <- deref p ;;
          ret <- assert_slice (ri_ret ri) ;;
          unit_ (ret, ri_err ri)
      end
  end.

Definition set_pending (n : Z) (c : Client) : Client :=
  mkClient (chanSyncRet c) (ChanAsynRet c) n.

(** Lines 269-288: the Client after the call, and the error. *)
Definition asynCall (c : Client) (id : ident) (args : list value) (cb : value)
    (n : Z) : M (Client * error) :=
  fe <- Client_f id n ;;
  match snd fe with
  | Some e => unit_ (c, Some e)
  | None =>
      err <- Client_call (mkCallInfo (fst fe) args (Some (ChanAsynRet c)) cb) false ;;
      match err with
      | Some e => unit_ (c, Some e)
      | None => unit_ (set_pending (int_add (pendingAsynCall c) 1) c, None)
      end
  end.

(** A callback is code of the application: the model records the call with
    its arguments and takes the callback to return. *)
Definition invoke (cb : value) (ret : option value) (err : error) : M unit :=
  fun w => Done tt (add_log (Called cb ret err) w).

(** Lines 292-322: the Client after the call. *)
Definition AsynCall (c : Client) (id : ident) (_args : list value) : M Client :=
  if (length _args <? 1)%nat then panic (FStr "callback function not found")
  else
    let args := if (1 <? length _args)%nat then removelast _args else [] in
    let cb := List.last _args VNil in
    match cb with
    | VFunc CbErr _ =>
        ce <- asynCall c id args cb 0 ;;
        match snd ce with
        | Some e => invoke cb None (Some e) ;;; unit_ (fst ce)
        | None => unit_ (fst ce)
        end
    | VFunc CbOne _ =>
        ce <- asynCall c id args cb 1 ;;
        match snd ce with
        | Some e => invoke cb (Some VNil) (Some e) ;;; unit_ (fst ce)
        | None => unit_ (fst ce)
        end
    | VFunc CbSeq _ =>
        ce <- asynCall c id args cb 2 ;;
        match snd ce with
        | Some e => invoke cb (Some (VSlice [])) (Some e) ;;; unit_ (fst ce)
        | None => unit_ (fst ce)
        end
    | _ => panic (FStr "definition of callback function is invalid")
    end.

(** Lines 325-338, on the pointer received from the asynchronous channel. *)
Definition Cb (c : Client) (p : option RetInfo) : M Client :=
  ri <- deref p ;;
  match ri_cb ri with
  | VFunc CbErr _ => invoke (ri_cb ri) None (ri_err ri)
  | VFunc CbOne _ => invoke (ri_cb ri) (Some (ri_ret ri)) (ri_err ri)
  | VFunc CbSeq _ =>
      ret <- assert_slice (ri_ret ri) ;;
      invoke (ri_cb ri) (Some (VSlice ret)) (ri_err ri)
  | _ => panic (FStr "bug")
  end ;;;
  unit_ (set_pending (int_sub (pendingAsynCall c) 1) c).

(** The loop of lines 342-344; [None] when the fuel runs out. *)
Fixpoint Close_loop (fuel : nat) (c : Client) (w : world) : option (outcome Client) :=
  if (0 <? pendingAsynCall c)%Z then
    match fuel with
    | O => None
    | S fuel' =>
        match (p <- recv_ret (ChanAsynRet c) ;; Cb c p) w with
        | Done c' w' => Close_loop fuel' c' w'
        | Panic r w' => Some (Panic r w')
        | Blocked w' => Some (Blocked w')
        end
    end
  else Some (Done c w).

(** Lines 341-345: every turn of the loop lowers the counter, which bounds
    the number of turns. *)
Definition Client_Close (c : Client) (w : world) : option (outcome Client) :=
  Close_loop (Z.to_nat (pendingAsynCall c)) c w.

End Chanrpc.

(** ** What the specification speaks of *)

Section Notions.

Variable E : env.

(** One of the three fixed shapes. *)
Definition is_operation (f : value) : bool :=
  has_type FuncNone f || has_type FuncOne f || has_type FuncSeq f.

(** How the body of the envelope's operation ends on the envelope's
    arguments, with the result as the Dispatcher packages it; [None] when
    the function has none of the three shapes. *)
Definition body_result (ci : CallInfo) : option (res value) :=
  match ci_f ci with
  | VFunc FuncNone p =>
      Some (match body0 E p (ci_args ci) with
            | Returns _ => Returns VNil
            | Panics r => Panics r
            end)
  | VFunc FuncOne p => Some (body1 E p (ci_args ci))
  | VFunc FuncSeq p =>
      Some (match bodyN E p (ci_args ci) with
            | Returns l => Returns (VSlice l)
            | Panics r => Panics r
            end)
  | _ => None
  end.

(** The fault the Dispatcher catches while it executes the envelope. *)
Definition caught (ci : CallInfo) : option fault :=
  match body_result ci with
  | Some (Returns _) => None
  | Some (Panics r) => Some r
  | None => Some (FStr "bug")
  end.

(** The Return Envelope of the envelope. *)
Definition reply (ci : CallInfo) : RetInfo :=
  match body_result ci with
  | Some (Returns v) => mkRetInfo v None (ci_cb ci)
  | _ => mkRetInfo VNil (fault_error E ci <$> caught ci) (ci_cb ci)
  end.

(** The world once the body has run. *)
Definition ran (ci : CallInfo) (w : world) : world :=
  match body_result ci with
  | Some _ => add_log (Ran (ci_f ci) (ci_args ci)) w
  | None => w
  end.

(** The channel with one more element. *)
Definition pushed {A} (x : A) (c : chan A) : chan A :=
  mkChan (buf c ++ [x]) (cap c) (closed c).

Definition has_room {A} (c : chan A) : bool :=
  negb (closed c) && (length (buf c) <? cap c)%nat.

(** The world with [ri] pushed onto the return channel [ch]. *)
Definition deliver (ch : nat) (ri : RetInfo) (w : world) : world :=
  match heap w !! ch with
  | Some c => set_heap (<[ch := pushed ri c]> (heap w)) w
  | None => w
  end.


(** The envelope answers on the return channel [ch]. *)
Definition targets (ch : nat) (ci : CallInfo) : bool :=
  match ci_chanRet ci with
  | Some ch' => (ch =? ch')%nat
  | None => false
  end.

(** The Return Envelope by which [Close] answers a resident envelope, and
    the answers to the envelopes of a queue that go to [ch], in the order
    of the queue. *)
Definition closed_reply (ci : CallInfo) : RetInfo :=
  mkRetInfo VNil server_closed (ci_cb ci).

Definition answers_for (ch : nat) (q : list CallInfo) : list RetInfo :=
  List.map closed_reply (List.filter (targets ch) q).

(** A return channel once the answers have arrived; a closed one takes
    none. *)
Definition answered (ch : nat) (q : list CallInfo) (c : chan RetInfo) : chan RetInfo :=
  if closed c then c
  else mkChan (buf c ++ answers_for ch q) (cap c) false.


(** A Return Envelope that [Cb] can hand to its callback: the callback has
    one of the three shapes and, for a sequence callback, the result is a
    sequence.  [call_of] is the call that [Cb] then makes. *)
Definition callable (ri : RetInfo) : bool :=
  match ri_cb ri with
  | VFunc CbErr _ | VFunc CbOne _ => true
  | VFunc CbSeq _ => match ri_ret ri with VSlice _ => true | _ => false end
  | _ => false
  end.

Definition call_of (ri : RetInfo) : event :=
  match ri_cb ri with
  | VFunc CbErr _ => Called (ri_cb ri) None (ri_err ri)
  | _ => Called (ri_cb ri) (Some (ri_ret ri)) (ri_err ri)
  end.

(** The number by which the code names a shape (lines 161-170). *)
Definition arity (t : functype) : Z :=
  match t with
  | FuncNone => 0
  | FuncOne => 1
  | _ => 2
  end.

(** The shape an asynchronous call requests by its callback, and the
    nil result a failed call hands to the callback. *)
Definition requested (cb : value) : option functype :=
  match cb with
  | VFunc CbErr _ => Some FuncNone
  | VFunc CbOne _ => Some FuncOne
  | VFunc CbSeq _ => Some FuncSeq
  | _ => None
  end.


(** The id is registered with an operation of the requested shape. *)
Definition resolves (t : functype) (id : ident) (w : world) : bool :=
  has_type t (lookup_func id w).

(** The error a synchronous or asynchronous call fails with when the id
    does not resolve to the requested shape. *)
Definition resolution_error (id : ident) (w : world) : string :=
  match lookup_func id w with
  | VNil => not_registered E id
  | _ => type_mismatch E id
  end.

End Notions.

(** ** A small program to run the model on *)

Definition demo_env : env :=
  mkEnv
    (fun p _ => match p with O => Returns tt | _ => Panics (FStr "boom") end)
    (fun p args =>
       match args with
       | [VInt a; VInt b] => Returns (VInt (a + b))
       | _ => Panics (FErr "runtime error: index out of range")
       end)
    (fun p args => match p with O => Returns args | _ => Panics (FStr "boom") end)
    (fun v => match v with VStr s => s | _ => "?" end)
    4
    (fun _ => "goroutine 1 [running]").

Definition demo_functions : gmap ident value :=
  <[IdStr "tick" := VFunc FuncNone 0]>
  (<[IdStr "add" := VFunc FuncOne 0]>
  (<[IdStr "list" := VFunc FuncSeq 0]>
  (<[IdStr "fail" := VFunc FuncSeq 1]> ∅))).

(** A Server with four operations and a queue of capacity 2, and one Client
    (channels 0 and 1, no call pending). *)
Definition demo_world : world :=
  mkWorld (mkServer demo_functions (mkChan [] 2 false))
          (<[0%nat := mkChan [] 1 false]> (<[1%nat := mkChan [] 2 false]> ∅))
          [].

Definition demo_client : Client := mkClient 0 1 0.

(** The envelope that [Go] builds for ["tick"]: it has no return channel. *)
Definition Go_envelope : CallInfo := mkCallInfo (VFunc FuncNone 0) [] None VNil.

Definition closed_world : world :=
  set_ChanCall (mkChan [] 2 true) demo_world.

(** The same Server with three envelopes resident: two asynchronous calls
    of the Client and one envelope of [Go]. *)
Definition busy_world : world :=
  set_ChanCall
    (mkChan [mkCallInfo (VFunc FuncOne 0) [VInt 1; VInt 2] (Some 1%nat) (VFunc CbOne 3);
             Go_envelope;
             mkCallInfo (VFunc FuncSeq 0) [] (Some 1%nat) (VFunc CbSeq 4)]
            3 false)
    demo_world.

(** The Client with two calls pending, and the world in which the two
    results wait in its asynchronous channel. *)
Definition waiting_client : Client := mkClient 0 1 2.

Definition waiting_world : world :=
  set_heap (<[1%nat := mkChan [mkRetInfo (VInt 3) None (VFunc CbOne 10);
                               mkRetInfo VNil (Some "boom: goro") (VFunc CbErr 11)]
                              2 false]> (heap demo_world))
           demo_world.

(** The owner loop's turn: receive one envelope from the Call Queue and
    execute it. *)
Definition owner_turn (E : env) (w : world) : world :=
  match chan_recv (ChanCall (srv w)) with
  | Got ci q =>
      match Exec E ci (set_ChanCall q w) with
      | Done _ w' => w'
      | Panic _ w' => w'
      | Blocked w' => w'
      end
  | _ => w
  end.

(** The owner thread ends its loop and closes the Server. *)
Definition close_turn (w : world) : world :=
  match Server_Close w with
  | Done _ w' => w'
  | Panic _ w' => w'
  | Blocked w' => w'
  end.

(** An empty channel that is open and takes at least one element. *)
Definition idle {A} (c : chan A) : bool :=
  match buf c with
  | [] => has_room c
  | _ => false
  end.

(** ** The threads of a program, interleaved

    The Clients, the owner loop and the Server's own [Go] run as threads
    that meet on the channels only.  A [system] is the world, the Clients,
    the envelope that the owner loop has received and not yet executed, and
    three records that the steps keep for the statements below: the
    envelopes that entered the Call Queue, the envelopes that the owner
    thread handled with the Return Envelope of each, and the Return
    Envelopes that were received from each return channel, all oldest
    first. *)

Record system : Type := mkSystem {
  now : world;
  clients : list Client;
  owner : option CallInfo;
  submitted : list CallInfo;
  handled : list (CallInfo * RetInfo);
  taken : nat -> list RetInfo }.

(** The envelopes that a step of a caller pushed onto the Call Queue. *)
Definition new_calls (w w' : world) : list CallInfo :=
  drop (length (buf (ChanCall (srv w)))) (buf (ChanCall (srv w'))).

Definition take_from (ch : nat) (ri : RetInfo) (t : nat -> list RetInfo)
    : nat -> list RetInfo :=
  fun ch' => if (ch' =? ch)%nat then t ch' ++ [ri] else t ch'.






Section Interleaving.

Variable E : env.

(** One step of one thread.  A step is a call of the code that returns; a
    thread parked on a channel takes no step.  The owner loop is the
    application's (section 6 of the specification: one loop per Server
    that receives from the Call Queue and invokes [Exec] on each envelope):
    it receives an envelope ([step_receive]) and hands it to [Exec]
    ([step_Exec]), one at a time, and may end by [Close] ([step_Close]).  A synchronous call is the push
    of lines 205-218 ([step_call]) and later the receive of its result
    ([step_result]); [step_Cb] is [c.Cb(<-c.ChanAsynRet)]. *)
Inductive step : system -> system -> Prop :=
| step_Open s l c w' :
    Open l (now s) = Done c w' ->
    step s (mkSystem w' (clients s ++ [c]) (owner s)
              (submitted s) (handled s) (taken s))
| step_AsynCall s k c id _args c' w' :
    clients s !! k = Some c ->
    AsynCall E c id _args (now s) = Done c' w' ->
    step s (mkSystem w' (<[k := c']> (clients s)) (owner s)
              (submitted s ++ new_calls (now s) w') (handled s) (taken s))
| step_call s k c id n args f w' :
    clients s !! k = Some c ->
    Client_f E id n (now s) = Done (f, None) (now s) ->
    Client_call (mkCallInfo f args (Some (chanSyncRet c)) VNil) true (now s)
    = Done None w' ->
    step s (mkSystem w' (clients s) (owner s)
              (submitted s ++ new_calls (now s) w') (handled s) (taken s))
| step_result s k c ri w' :
    clients s !! k = Some c ->
    recv_ret (chanSyncRet c) (now s) = Done (Some ri) w' ->
    step s (mkSystem w' (clients s) (owner s)
              (submitted s) (handled s)
              (take_from (chanSyncRet c) ri (taken s)))
| step_Cb s k c ri w1 c' w' :
    clients s !! k = Some c ->
    recv_ret (ChanAsynRet c) (now s) = Done (Some ri) w1 ->
    Cb c (Some ri) w1 = Done c' w' ->
    step s (mkSystem w' (<[k := c']> (clients s)) (owner s)
              (submitted s) (handled s)
              (take_from (ChanAsynRet c) ri (taken s)))
| step_Go s id args w' :
    Go id args (now s) = Done tt w' ->
    step s (mkSystem w' (clients s) (owner s)
              (submitted s ++ new_calls (now s) w') (handled s) (taken s))
| step_receive s ci q :
    owner s = None ->
    chan_recv (ChanCall (srv (now s))) = Got ci q ->
    step s (mkSystem (set_ChanCall q (now s)) (clients s) (Some ci)
              (submitted s) (handled s) (taken s))
| step_Exec s ci err w' :
    owner s = Some ci ->
    Exec E ci (now s) = Done err w' ->
    step s (mkSystem w' (clients s) None
              (submitted s) (handled s ++ [(ci, reply E ci)]) (taken s))
| step_Close s w' :
    owner s = None ->
    Server_Close (now s) = Done tt w' ->
    step s (mkSystem w' (clients s) None
              (submitted s)
              (handled s ++ List.map (fun ci => (ci, closed_reply ci))
                                     (buf (ChanCall (srv (now s)))))
              (taken s)).








(** The steps as functions, for running a schedule: each takes the step
    when it is enabled and leaves the system as it is otherwise. *)
Definition do_Open (l : Z) (s : system) : system :=
  match Open l (now s) with
  | Done c w' =>
      mkSystem w' (clients s ++ [c]) (owner s) (submitted s) (handled s) (taken s)
  | _ => s
  end.

Definition do_AsynCall (k : nat) (id : ident) (_args : list value) (s : system)
    : system :=
  match clients s !! k with
  | Some c =>
      match AsynCall E c id _args (now s) with
      | Done c' w' =>
          mkSystem w' (<[k := c']> (clients s)) (owner s)
            (submitted s ++ new_calls (now s) w') (handled s) (taken s)
      | _ => s
      end
  | None => s
  end.

Definition do_receive (s : system) : system :=
  match owner s, chan_recv (ChanCall (srv (now s))) with
  | None, Got ci q =>
      mkSystem (set_ChanCall q (now s)) (clients s) (Some ci)
        (submitted s) (handled s) (taken s)
  | _, _ => s
  end.

Definition do_Exec (s : system) : system :=
  match owner s with
  | Some ci =>
      match Exec E ci (now s) with
      | Done _ w' =>
          mkSystem w' (clients s) None (submitted s)
            (handled s ++ [(ci, reply E ci)]) (taken s)
      | _ => s
      end
  | None => s
  end.


End Interleaving.

(** ** A schedule of two Clients on the small program

    The Server with a queue of capacity 4; two Clients are opened (channels
    0, 1 and 2, 3); the first calls ["add"], the second ["tick"], the first
    ["list"]; the owner loop receives and executes the three envelopes; the
    first Client then drains one result. *)

Definition fifo_start : system :=
  mkSystem (mkWorld (mkServer demo_functions (mkChan [] 4 false)) ∅ [])
           [] None [] [] (fun _ => []).


(** * Properties *)

Local Open Scope go_scope.

(** ** Channels and the return path *)

Lemma has_room_send {A} (c : chan A) (x : A) :
  has_room c = true -> chan_send c x = Sent (pushed x c).
Proof.
  unfold has_room, chan_send, pushed.
  destruct (closed c); simpl; [discriminate|].
  intros ->. reflexivity.
Qed.

Lemma closed_send {A} (c : chan A) (x : A) :
  closed c = true -> chan_send c x = SendOnClosed.
Proof. unfold chan_send. intros ->. reflexivity. Qed.





Section ReturnPath.

Variable E : env.


Lemma Server_ret_room ci ri ch c w :
  ci_chanRet ci = Some ch -> heap w !! ch = Some c -> has_room c = true ->
  Server_ret ci ri w
  = Done None (deliver ch (mkRetInfo (ri_ret ri) (ri_err ri) (ci_cb ci)) w).
Proof.
  intros Hch Hc Hroom. unfold Server_ret, recover, bind, send_ret, deliver.
  rewrite Hch, Hc, (has_room_send _ _ Hroom). reflexivity.
Qed.



(** The recovered payload of the send is an error: the assertion of line
    143 holds and no panic leaves [ret]. *)
Lemma Server_ret_no_panic ci ri w r w' : Server_ret ci ri w <> Panic r w'.
Proof.
  unfold Server_ret, recover, bind, send_ret.
  destruct (ci_chanRet ci) as [ch|]; [|discriminate].
  destruct (heap w !! ch) as [c|]; [|discriminate].
  destruct (chan_send c _); discriminate.
Qed.

(** [ret] sets the callback itself: only the result and the error of the
    envelope it is given matter. *)
Lemma Server_ret_ext ci ri ri' w :
  ri_ret ri = ri_ret ri' -> ri_err ri = ri_err ri' ->
  Server_ret ci ri w = Server_ret ci ri' w.
Proof. unfold Server_ret. intros -> ->. reflexivity. Qed.

Lemma recover_Server_ret ci ri (h : fault -> M error) w :
  recover (Server_ret ci ri) h w = Server_ret ci ri w.
Proof.
  unfold recover at 1.
  destruct (Server_ret ci ri w) as [e w'|r w'|w'] eqn:Hret; try reflexivity.
  exfalso. exact (Server_ret_no_panic _ _ _ _ _ Hret).
Qed.

Lemma bind_unit {A} (m : M A) w : (a <- m ;; unit_ a) w = m w.
Proof. unfold bind, unit_. destruct (m w); reflexivity. Qed.

(** [Exec] is: run the body, hand the Return Envelope to [ret] once, and
    return the fault's error, or else what [ret] returned. *)
Lemma Exec_eq ci w :
  Exec E ci w
  = (e <- Server_ret ci (reply E ci) ;;
     unit_ (match caught E ci with
            | Some r => Some (fault_error E ci r)
            | None => e
            end)) (ran E ci w).
Proof.
  destruct ci as [f args ch cb].
  unfold Exec, reply, caught, ran, body_result; simpl.
  destruct f as [| | | | |t p];
    try (unfold recover, bind, panic; simpl;
         erewrite Server_ret_ext; reflexivity).
  destruct t;
    try (unfold recover, bind, panic; simpl;
         erewrite Server_ret_ext; reflexivity).
  - destruct (body0 E p args) as [[]|r]; simpl.
    + rewrite bind_unit.
      rewrite (Server_ret_ext _ (mkRetInfo VNil None cb) (mkRetInfo VNil None VNil))
        by reflexivity.
      unfold recover at 1, bind at 1, run.
      destruct (Server_ret _ _ _) as [e w'|r w'|w'] eqn:Hret; try reflexivity.
      exfalso. exact (Server_ret_no_panic _ _ _ _ _ Hret).
    + unfold recover, bind, run; simpl.
      erewrite Server_ret_ext; reflexivity.
  - destruct (body1 E p args) as [v|r]; simpl.
    + rewrite bind_unit.
      rewrite (Server_ret_ext _ (mkRetInfo v None cb) (mkRetInfo v None VNil))
        by reflexivity.
      unfold recover at 1, bind at 1, run.
      destruct (Server_ret _ _ _) as [e w'|r w'|w'] eqn:Hret; try reflexivity.
      exfalso. exact (Server_ret_no_panic _ _ _ _ _ Hret).
    + unfold recover, bind, run; simpl.
      erewrite Server_ret_ext; reflexivity.
  - destruct (bodyN E p args) as [l|r]; simpl.
    + rewrite bind_unit.
      rewrite (Server_ret_ext _ (mkRetInfo (VSlice l) None cb)
                 (mkRetInfo (VSlice l) None VNil)) by reflexivity.
      unfold recover at 1, bind at 1, run.
      destruct (Server_ret _ _ _) as [e w'|r w'|w'] eqn:Hret; try reflexivity.
      exfalso. exact (Server_ret_no_panic _ _ _ _ _ Hret).
    + unfold recover, bind, run; simpl.
      erewrite Server_ret_ext; reflexivity.
Qed.

End ReturnPath.

(** ** The first bytes of the trace *)



(** ** The Function Registry *)

Section Registry.

Variable E : env.

(** C7.  [Register] panics when the id is already in the registry or when
    the function is not of one of the three shapes, and the world (so the
    registry) is then as it was; otherwise it returns with the registry
    extended by the mapping. *)
Theorem Register_fatal_or_stored (id : ident) (f : value) (w : world) :
  (is_Some (functions (srv w) !! id) \/ is_operation f = false ->
   exists r, Register E id f w = Panic r w) /\
  (functions (srv w) !! id = None -> is_operation f = true ->
   Register E id f w
   = Done tt (set_functions (<[id := f]> (functions (srv w))) w)).
Proof.
  split.
  - intros [[v Hv]|Hf]; unfold Register.
    + rewrite Hv. destruct f as [| | | | |[] p]; eauto.
    + destruct f as [| | | | |[] p]; try discriminate; eauto.
  - intros Hid Hf. unfold Register. rewrite Hid.
    destruct f as [| | | | |[] p]; try discriminate; reflexivity.
Qed.

(** C8.  A synchronous call whose id is unregistered, or registered with
    another shape than the one requested, returns the resolution error at
    once, whatever the other threads would do, in a world that is the one it
    started in: nothing went to the Call Queue. *)
Theorem sync_call_unresolved (sched : world -> world) (c : Client)
    (id : ident) (args : list value) (w : world) :
  (resolves FuncNone id w = false ->
   Call0 E sched c id args w = Done (Some (resolution_error E id w)) w) /\
  (resolves FuncOne id w = false ->
   Call1 E sched c id args w = Done (VNil, Some (resolution_error E id w)) w) /\
  (resolves FuncSeq id w = false ->
   CallN E sched c id args w = Done ([], Some (resolution_error E id w)) w).
Proof.
  unfold resolves, resolution_error, Call0, Call1, CallN, Client_f, bind.
  repeat split; intros H;
    destruct (lookup_func id w) as [| | | | |[] p];
    try discriminate; reflexivity.
Qed.

End Registry.

(** ** The Dispatcher *)

Section Dispatcher.

Variable E : env.


Lemma Exec_room ci ch c w :
  ci_chanRet ci = Some ch -> heap w !! ch = Some c -> has_room c = true ->
  Exec E ci w
  = Done (fault_error E ci <$> caught E ci)
         (deliver ch (reply E ci) (ran E ci w)).
Proof.
  intros Hch Hc Hroom. rewrite Exec_eq. unfold bind.
  assert (Hc' : heap (ran E ci w) !! ch = Some c).
  { unfold ran. destruct (body_result E ci); exact Hc. }
  rewrite (Server_ret_room _ _ _ _ _ Hch Hc' Hroom). unfold unit_.
  replace (mkRetInfo (ri_ret (reply E ci)) (ri_err (reply E ci)) (ci_cb ci))
    with (reply E ci).
  - destruct (caught E ci); reflexivity.
  - unfold reply. destruct (body_result E ci) as [[v|r]|]; reflexivity.
Qed.







End Dispatcher.

(** ** The Registry and the Dispatcher on the small program *)

Lemma Register_fatal_or_stored_witness :
  (exists r, Register demo_env (IdStr "add") (VFunc FuncNone 5) demo_world
             = Panic r demo_world) /\
  (exists r, Register demo_env (IdStr "new") (VFunc CbErr 5) demo_world
             = Panic r demo_world) /\
  Register demo_env (IdStr "new") (VFunc FuncNone 5) demo_world
  = Done tt (set_functions (<[IdStr "new" := VFunc FuncNone 5]> demo_functions)
               demo_world).
Proof.
  split; [|split].
  - apply (proj1 (Register_fatal_or_stored demo_env (IdStr "add")
                    (VFunc FuncNone 5) demo_world)).
    left. exists (VFunc FuncOne 0). reflexivity.
  - apply (proj1 (Register_fatal_or_stored demo_env (IdStr "new")
                    (VFunc CbErr 5) demo_world)).
    right. reflexivity.
  - apply (proj2 (Register_fatal_or_stored demo_env (IdStr "new")
                    (VFunc FuncNone 5) demo_world)); reflexivity.
Defined.

Lemma sync_call_unresolved_witness :
  Call0 demo_env (owner_turn demo_env) demo_client (IdStr "nope") [] demo_world
  = Done (Some "function id nope: function not registered") demo_world /\
  Call1 demo_env (owner_turn demo_env) demo_client (IdStr "tick") [] demo_world
  = Done (VNil, Some "function id tick: return type mismatch") demo_world /\
  CallN demo_env (owner_turn demo_env) demo_client (IdStr "add") [] demo_world
  = Done ([], Some "function id add: return type mismatch") demo_world.
Proof.
  split; [|split].
  - apply (proj1 (sync_call_unresolved demo_env (owner_turn demo_env)
                    demo_client (IdStr "nope") [] demo_world)).
    reflexivity.
  - apply (proj1 (proj2 (sync_call_unresolved demo_env (owner_turn demo_env)
                           demo_client (IdStr "tick") [] demo_world))).
    reflexivity.
  - apply (proj2 (proj2 (sync_call_unresolved demo_env (owner_turn demo_env)
                           demo_client (IdStr "add") [] demo_world))).
    reflexivity.
Defined.





(** ** Calling *)

Section Calling.

Variable E : env.

Lemma Client_call_closed ci block w :
  closed (ChanCall (srv w)) = true ->
  Client_call ci block w = Done (Some "send on closed channel") w.
Proof.
  intros Hcl. unfold Client_call, recover, bind, push_call_blocking, push_call, bind.
  destruct block; rewrite (closed_send _ _ Hcl); reflexivity.
Qed.

Lemma Client_call_room ci block w :
  has_room (ChanCall (srv w)) = true ->
  Client_call ci block w = Done None (set_ChanCall (pushed ci (ChanCall (srv w))) w).
Proof.
  intros Hroom. unfold Client_call, recover, bind, push_call_blocking, push_call, bind.
  destruct block; rewrite (has_room_send _ _ Hroom); reflexivity.
Qed.



Lemma Client_f_resolves t id w :
  is_operation (VFunc t 0) = true -> resolves t id w = true ->
  Client_f E id (arity t) w = Done (lookup_func id w, None) w.
Proof.
  unfold resolves, Client_f, bind, unit_.
  destruct (lookup_func id w) as [| | | | |[] p]; destruct t; try discriminate;
    reflexivity.
Qed.

Lemma Client_f_unresolved t id w :
  is_operation (VFunc t 0) = true -> resolves t id w = false ->
  Client_f E id (arity t) w
  = Done (lookup_func id w, Some (resolution_error E id w)) w.
Proof.
  unfold resolves, resolution_error, Client_f, bind, unit_.
  destruct (lookup_func id w) as [| | | | |[] p]; destruct t; try discriminate;
    reflexivity.
Qed.





(** The arguments of [AsynCall]: the arguments of the call, then the
    callback. *)
Lemma AsynCall_arguments (args : list value) (cb : value) :
  (length (args ++ [cb]) <? 1)%nat = false /\
  (if (1 <? length (args ++ [cb]))%nat then removelast (args ++ [cb]) else [])
  = args /\
  List.last (args ++ [cb]) VNil = cb.
Proof.
  split; [|split].
  - rewrite length_app. simpl. apply Nat.ltb_ge. lia.
  - destruct args as [|a args]; [reflexivity|].
    replace (1 <? length ((a :: args) ++ [cb]))%nat with true.
    + apply removelast_last.
    + symmetry. apply Nat.ltb_lt. rewrite length_app. simpl. lia.
  - apply last_last.
Qed.




End Calling.


(** ** Closing the Server *)

Lemma targets_spec ch ci : targets ch ci = true <-> ci_chanRet ci = Some ch.
Proof.
  unfold targets. destruct (ci_chanRet ci) as [ch'|]; [|split; discriminate].
  rewrite Nat.eqb_eq. split; [intros ->; reflexivity|intros [=]; congruence].
Qed.

Lemma answers_for_cons ch ci q :
  answers_for ch (ci :: q)
  = if targets ch ci then closed_reply ci :: answers_for ch q
    else answers_for ch q.
Proof. unfold answers_for. simpl. destruct (targets ch ci); reflexivity. Qed.

Lemma answered_nil ch c : answered ch [] c = c.
Proof.
  unfold answered, answers_for. simpl. destruct c as [b n []]; simpl;
    [reflexivity|]. rewrite app_nil_r. reflexivity.
Qed.





(** ** Results that carry an error and no value *)

Section NilResult.

Variable E : env.

(** A Return Envelope with a nil result in front of a sequence callback:
    the assertion of line 332 panics, before the callback is called and
    before the counter is lowered. *)
Lemma Cb_nil_sequence c ri p w :
  ri_cb ri = VFunc CbSeq p -> ri_ret ri = VNil ->
  Cb c (Some ri) w = Panic bad_assertion w.
Proof.
  intros Hcb Hret. unfold Cb, bind, deref, unit_. rewrite Hcb, Hret. reflexivity.
Qed.

(** The same envelope read by [CallN]: the assertion of line 265 panics,
    whatever the error it carries. *)
Lemma CallN_nil_result sched c id args ri q w :
  resolves FuncSeq id w = true -> has_room (ChanCall (srv w)) = true ->
  heap (sched (set_ChanCall
                 (pushed (mkCallInfo (lookup_func id w) args (Some (chanSyncRet c)) VNil)
                         (ChanCall (srv w))) w)) !! chanSyncRet c
  = Some q ->
  chan_recv q = Got ri (mkChan (tl (buf q)) (cap q) (closed q)) ->
  ri_ret ri = VNil ->
  exists w', CallN E sched c id args w = Panic bad_assertion w'.
Proof.
  intros Hres Hroom Hq Hrecv Hret. unfold CallN, bind at 1.
  change 2%Z with (arity FuncSeq).
  rewrite (Client_f_resolves E FuncSeq _ _ eq_refl Hres). simpl. unfold bind at 1.
  rewrite (Client_call_room _ _ _ Hroom).
  unfold bind, yield, recv_ret, deref, assert_slice, unit_, panic.
  rewrite Hq, Hrecv, Hret. eauto.
Qed.

End NilResult.

(** C1, on the small program.  The operation ["fail"] of shape N panics;
    the Dispatcher answers with a Return Envelope that has the error and a
    nil result, and [CallN] panics on it instead of returning the error.
    [Call1] returns the error of a panicking operation [(nil, err)].  [Cb]
    panics on the Return Envelope by which [Close] answers a call with a
    sequence callback, and the callback is not called. *)
Theorem CallN_and_Cb_fault_on_error :
  (exists w', CallN demo_env (owner_turn demo_env) demo_client (IdStr "fail") []
                demo_world = Panic bad_assertion w') /\
  (exists w', Call1 demo_env (owner_turn demo_env) demo_client (IdStr "add") []
                demo_world
              = Done (VNil, Some "runtime error: index out of range: goro") w') /\
  Cb demo_client
     (Some (mkRetInfo VNil (Some "chanrpc server closed") (VFunc CbSeq 4)))
     demo_world
  = Panic bad_assertion demo_world.
Proof.
  split; [|split].
  - eexists. vm_compute. reflexivity.
  - eexists. vm_compute. reflexivity.
  - reflexivity.
Qed.

(** C6, on the small program.  The Client issues one asynchronous call
    with a sequence callback, so that its counter is 1; the Server closes
    with the call still queued and answers it; [Close] of the Client then
    receives the one Return Envelope and panics in [Cb]: it does not
    return, and no callback was called. *)
Theorem Client_Close_faults_on_error :
  exists c1 w1 w2 w3,
    AsynCall demo_env demo_client (IdStr "list") [VFunc CbSeq 4] demo_world
    = Done c1 w1 /\
    pendingAsynCall c1 = 1%Z /\
    Server_Close w1 = Done tt w2 /\
    heap w2 !! ChanAsynRet c1
    = Some (mkChan [mkRetInfo VNil (Some "chanrpc server closed") (VFunc CbSeq 4)]
                   2 false) /\
    Client_Close c1 w2 = Some (Panic bad_assertion w3) /\
    log w3 = [].
Proof.
  eexists _, _, _, _.
  split; [vm_compute; reflexivity|].
  split; [reflexivity|].
  split; [vm_compute; reflexivity|].
  split; [reflexivity|].
  split; [vm_compute; reflexivity|].
  reflexivity.
Qed.

(** ** First in, first out *)






Section Effects.

Variable E : env.

Lemma Client_f_effect id n w fe w' : Client_f E id n w = Done fe w' -> w' = w.
Proof.
  unfold Client_f, bind, unit_, panic.
  destruct (lookup_func id w) as [| | | | |t p]; [intros [=]; congruence|..];
    (destruct n as [|[q|[q|q|]|]|q]; cbv beta iota;
     try discriminate;
     match goal with
     | |- context [if ?b then _ else _] => destruct b
     end; intros [=]; congruence).
Qed.





Lemma reply_eta ci :
  mkRetInfo (ri_ret (reply E ci)) (ri_err (reply E ci)) (ci_cb ci) = reply E ci.
Proof. unfold reply. destruct (body_result E ci) as [[v|r]|]; reflexivity. Qed.

Lemma ran_srv ci w : srv (ran E ci w) = srv w.
Proof. unfold ran. destruct (body_result E ci); reflexivity. Qed.

Lemma ran_heap ci w : heap (ran E ci w) = heap w.
Proof. unfold ran. destruct (body_result E ci); reflexivity. Qed.

(** What [ret] did when it returned. *)
Lemma Server_ret_effect ci ri w e w' :
  Server_ret ci ri w = Done e w' ->
  srv w' = srv w /\
  match ci_chanRet ci with
  | None => heap w' = heap w
  | Some ch =>
      exists c, heap w !! ch = Some c /\
        ((closed c = true /\ heap w' = heap w) \/
         (closed c = false /\
          heap w' = <[ch := pushed (mkRetInfo (ri_ret ri) (ri_err ri) (ci_cb ci)) c]>
                      (heap w)))
  end.
Proof.
  unfold Server_ret.
  destruct (ci_chanRet ci) as [ch|]; [|intros [=]; subst; auto].
  unfold recover, bind, send_ret, assert_error, send_on_closed, unit_, panic.
  destruct (heap w !! ch) as [c|] eqn:Hc; [|discriminate].
  unfold chan_send. destruct (closed c) eqn:Hcl.
  - intros [=]; subst. split; [reflexivity|]. exists c. auto.
  - destruct (_ <? _)%nat; [|discriminate].
    intros [=]; subst. split; [reflexivity|]. exists c.
    split; [reflexivity|]. right. split; [exact Hcl|].
    unfold pushed. rewrite Hcl. reflexivity.
Qed.

(** What [Exec] did when it returned. *)
Lemma Exec_effect ci w e w' :
  Exec E ci w = Done e w' ->
  srv w' = srv w /\
  match ci_chanRet ci with
  | None => heap w' = heap w
  | Some ch =>
      exists c, heap w !! ch = Some c /\
        ((closed c = true /\ heap w' = heap w) \/
         (closed c = false /\ heap w' = <[ch := pushed (reply E ci) c]> (heap w)))
  end.
Proof.
  rewrite Exec_eq. unfold bind.
  destruct (Server_ret ci (reply E ci) (ran E ci w)) as [e1 w1|r w1|w1] eqn:Hret;
    try discriminate.
  unfold unit_. intros [=]; subst.
  apply Server_ret_effect in Hret. rewrite reply_eta in Hret.
  rewrite ran_srv, ran_heap in Hret. exact Hret.
Qed.

(** What a receive from a return channel did. *)
Lemma recv_ret_effect ch w ri w' :
  recv_ret ch w = Done (Some ri) w' ->
  srv w' = srv w /\
  exists c rest,
    heap w !! ch = Some c /\ buf c = ri :: rest /\
    heap w' = <[ch := mkChan rest (cap c) (closed c)]> (heap w).
Proof.
  unfold recv_ret. destruct (heap w !! ch) as [c|] eqn:Hc; [|discriminate].
  unfold chan_recv. destruct (buf c) as [|x rest] eqn:Hb.
  - destruct (closed c); discriminate.
  - intros [=]; subst. split; [reflexivity|]. exists c, rest. auto.
Qed.

Lemma Cb_effect c p w c' w' :
  Cb c p w = Done c' w' ->
  srv w' = srv w /\ heap w' = heap w /\
  chanSyncRet c' = chanSyncRet c /\ ChanAsynRet c' = ChanAsynRet c.
Proof.
  unfold Cb, bind, deref, unit_, panic, invoke, assert_slice.
  destruct p as [ri|]; [|discriminate]. intros H.
  destruct (ri_cb ri) as [| | | | |[] q]; try discriminate H;
    try (injection H as <- <-; auto).
  destruct (ri_ret ri); try discriminate H. injection H as <- <-. auto.
Qed.

(** What [Open] did when it returned: two new channels, empty and open. *)
Lemma Open_effect l w c w' :
  Open l w = Done c w' ->
  srv w' = srv w /\
  exists n,
    heap w' = <[ChanAsynRet c := mkChan [] n false]>
                (<[chanSyncRet c := mkChan [] 1 false]> (heap w)) /\
    heap w !! chanSyncRet c = None /\
    heap w !! ChanAsynRet c = None /\
    chanSyncRet c <> ChanAsynRet c.
Proof.
  unfold Open, bind, make_chan, unit_. simpl.
  destruct (l <? 0)%Z; [discriminate|].
  intros [=]; subst. simpl. split; [reflexivity|].
  exists (Z.to_nat l). split; [reflexivity|].
  set (a := fresh (dom (heap w))).
  set (b := fresh (dom (<[a := mkChan [] (Pos.to_nat 1) false]> (heap w)))).
  assert (Ha : a ∉ dom (heap w)) by apply is_fresh.
  assert (Hb : b ∉ dom (<[a := mkChan [] (Pos.to_nat 1) false]> (heap w)))
    by apply is_fresh.
  rewrite dom_insert_L in Hb.
  split; [apply not_elem_of_dom; exact Ha|].
  split; [apply not_elem_of_dom; set_solver|].
  set_solver.
Qed.

Lemma answers_for_absent ch ci q :
  targets ch ci = false -> answers_for ch (ci :: q) = answers_for ch q.
Proof. intros H. rewrite answers_for_cons, H. reflexivity. Qed.

(** What the loop of [Close] did when it returned. *)
Lemma drain_done (q : list CallInfo) : forall (w : world) (n : nat) (w' : world),
  ChanCall (srv w) = mkChan q n true ->
  drain q w = Done tt w' ->
  srv w' = mkServer (functions (srv w)) (mkChan [] n true) /\
  (forall ch, heap w' !! ch = answered ch q <$> heap w !! ch) /\
  (forall ch, heap w !! ch = None -> answers_for ch q = []).
Proof.
  induction q as [|ci q IH]; intros w n w' Hq Hd.
  - simpl in Hd. injection Hd as <-. split; [|split].
    + destruct w as [[fs cc] h l]. simpl in *. subst cc. reflexivity.
    + intros ch. destruct (heap w !! ch) as [c|]; simpl; [|reflexivity].
      rewrite answered_nil. reflexivity.
    + reflexivity.
  - simpl in Hd. unfold bind at 1 in Hd. rewrite Hq in Hd. simpl in Hd.
    set (w1 := set_ChanCall (mkChan q n true) w) in Hd.
    unfold bind at 1 in Hd.
    destruct (Server_ret ci _ w1) as [e w2|r w2|w2] eqn:Hret; try discriminate.
    apply Server_ret_effect in Hret. destruct Hret as [Hs2 Hh2]. simpl in Hh2.
    assert (Hq2 : ChanCall (srv w2) = mkChan q n true) by (rewrite Hs2; reflexivity).
    destruct (IH w2 n w' Hq2 Hd) as (Hs & Hh & Hnone).
    split; [rewrite Hs, Hs2; reflexivity|].
    destruct (ci_chanRet ci) as [ch0|] eqn:Hch.
    + destruct Hh2 as (c0 & Hc0 & Hcase).
      assert (Ht0 : targets ch0 ci = true) by (apply targets_spec; exact Hch).
      assert (Hne : forall ch, ch0 <> ch -> targets ch ci = false).
      { intros ch Hn. destruct (targets ch ci) eqn:Ht; [|reflexivity].
        apply targets_spec in Ht. congruence. }
      destruct Hcase as [[Hcl Hheap]|[Hcl Hheap]].
      * split.
        -- intros ch. rewrite Hh, Hheap.
           destruct (decide (ch0 = ch)) as [<-|Hn].
           ++ rewrite Hc0. simpl. unfold answered. rewrite Hcl. reflexivity.
           ++ destruct (heap w !! ch) as [c|]; simpl; [|reflexivity].
              unfold answered. rewrite (answers_for_absent _ _ _ (Hne ch Hn)).
              reflexivity.
        -- intros ch Hc. assert (Hn : ch0 <> ch) by congruence.
           rewrite (answers_for_absent _ _ _ (Hne ch Hn)).
           apply Hnone. rewrite Hheap. exact Hc.
      * split.
        -- intros ch. rewrite Hh, Hheap.
           destruct (decide (ch0 = ch)) as [<-|Hn].
           ++ rewrite lookup_insert_eq, Hc0. simpl. f_equal.
              unfold answered, pushed. simpl. rewrite Hcl.
              rewrite answers_for_cons, Ht0, <- app_assoc. reflexivity.
           ++ rewrite lookup_insert_ne by exact Hn.
              destruct (heap w !! ch) as [c|]; simpl; [|reflexivity].
              unfold answered. rewrite (answers_for_absent _ _ _ (Hne ch Hn)).
              reflexivity.
        -- intros ch Hc. assert (Hn : ch0 <> ch) by congruence.
           rewrite (answers_for_absent _ _ _ (Hne ch Hn)).
           apply Hnone. rewrite Hheap, lookup_insert_ne by exact Hn. exact Hc.
    + assert (Hne : forall ch, targets ch ci = false).
      { intros ch. unfold targets. rewrite Hch. reflexivity. }
      split.
      * intros ch. rewrite Hh, Hh2.
        destruct (heap w !! ch) as [c|]; simpl; [|reflexivity].
        unfold answered. rewrite (answers_for_absent _ _ _ (Hne ch)). reflexivity.
      * intros ch Hc. rewrite (answers_for_absent _ _ _ (Hne ch)).
        apply Hnone. rewrite Hh2. exact Hc.
Qed.

Lemma Server_Close_effect w w' :
  Server_Close w = Done tt w' ->
  srv w' = mkServer (functions (srv w)) (mkChan [] (cap (ChanCall (srv w))) true) /\
  (forall ch, heap w' !! ch = answered ch (buf (ChanCall (srv w))) <$> heap w !! ch) /\
  (forall ch, heap w !! ch = None -> answers_for ch (buf (ChanCall (srv w))) = []).
Proof.
  unfold Server_Close. destruct (closed (ChanCall (srv w))); [discriminate|].
  intros Hd.
  exact (drain_done (buf (ChanCall (srv w)))
           (set_ChanCall (chan_close (ChanCall (srv w))) w)
           (cap (ChanCall (srv w))) w' eq_refl Hd).
Qed.

End Effects.

(** ** The order is kept by every step *)







Section Order.

Variable E : env.


















End Order.

(** ** Schedules reach *)

Section Schedules.

Variable E : env.






End Schedules.



(** ** Closing the Client *)

Lemma int_wrap_small z : (- 2 ^ 63 <= z < 2 ^ 63)%Z -> int_wrap z = z.
Proof.
  intros Hz. unfold int_wrap. rewrite Z.mod_small; lia.
Qed.

Lemma int_wrap_le z : (0 <= z)%Z -> (int_wrap z <= z)%Z.
Proof.
  intros Hz. unfold int_wrap.
  pose proof (Z.mod_le (z + 2 ^ 63) (2 ^ 64)) as H. lia.
Qed.

Lemma Cb_pending c p w c' w' :
  Cb c p w = Done c' w' ->
  pendingAsynCall c' = int_sub (pendingAsynCall c) 1.
Proof.
  unfold Cb, bind, deref, unit_, panic, invoke, assert_slice.
  destruct p as [ri|]; [|discriminate]. intros H.
  destruct (ri_cb ri) as [| | | | |[] q]; try discriminate H;
    try (injection H as <- _; reflexivity).
  destruct (ri_ret ri); try discriminate H. injection H as <- _. reflexivity.
Qed.

(** The counter bounds the turns of the loop: [Close] has fuel enough. *)
Lemma Close_loop_fuel (n : nat) : forall (c : Client) (w : world),
  Z.to_nat (pendingAsynCall c) <= n -> is_Some (Close_loop n c w).
Proof.
  induction n as [|n IH]; intros c w Hn; simpl;
    destruct (0 <? pendingAsynCall c)%Z eqn:Hpos; eauto.
  - apply Z.ltb_lt in Hpos. lia.
  - apply Z.ltb_lt in Hpos.
    destruct ((p <- recv_ret (ChanAsynRet c);; Cb c p)%go w)
      as [c' w'|r w'|w'] eqn:Hstep; eauto.
    apply IH. unfold bind in Hstep.
    destruct (recv_ret (ChanAsynRet c) w) as [p w1|r w1|w1]; try discriminate.
    apply Cb_pending in Hstep. rewrite Hstep. unfold int_sub.
    pose proof (int_wrap_le (pendingAsynCall c - 1)). lia.
Qed.

Lemma Client_Close_returns c w : is_Some (Client_Close c w).
Proof. apply Close_loop_fuel. lia. Qed.

Lemma Cb_callable c ri w :
  callable ri = true ->
  Cb c (Some ri) w
  = Done (set_pending (int_sub (pendingAsynCall c) 1) c) (add_log (call_of ri) w).
Proof.
  unfold callable, call_of, Cb, bind, deref, unit_, invoke, assert_slice.
  destruct (ri_cb ri) as [| | | | |[] q]; try discriminate; try reflexivity.
  destruct (ri_ret ri); try discriminate. reflexivity.
Qed.

(** Apart from the nil result of C1: when the asynchronous channel holds
    one callable Return Envelope for each of the [n] pending calls, [Close]
    returns with the counter at 0, having received these envelopes and
    called each callback once, in the order of the channel. *)
Lemma Close_loop_drains (n : nat) :
  forall (c : Client) (w : world) (q : chan RetInfo) (ris rest : list RetInfo),
  pendingAsynCall c = Z.of_nat n -> (Z.of_nat n < 2 ^ 63)%Z ->
  heap w !! ChanAsynRet c = Some q -> buf q = ris ++ rest -> length ris = n ->
  forallb callable ris = true ->
  Close_loop n c w
  = Some (Done (set_pending 0 c)
            (mkWorld (srv w)
               (<[ChanAsynRet c := mkChan rest (cap q) (closed q)]> (heap w))
               (log w ++ List.map call_of ris))).
Proof.
  induction n as [|n IH]; intros c w q ris rest Hp Hlt Hq Hb Hlen Hall.
  - destruct ris; [|discriminate]. simpl in *. rewrite Hp. simpl.
    destruct c as [a b p]; destruct w as [sv h l]; simpl in *. subst p.
    rewrite app_nil_r. unfold set_pending. simpl. do 3 f_equal.
    symmetry. apply insert_id. rewrite Hq. destruct q; simpl in *; congruence.
  - destruct ris as [|ri ris]; [discriminate|]. simpl in Hlen, Hall, Hb.
    apply andb_prop in Hall. destruct Hall as [Hri Hall].
    simpl. rewrite Hp.
    replace (0 <? Z.of_nat (S n))%Z with true by (symmetry; apply Z.ltb_lt; lia).
    unfold bind, recv_ret. rewrite Hq. unfold chan_recv. rewrite Hb.
    rewrite (Cb_callable _ _ _ Hri).
    rewrite (IH _ _ (mkChan (ris ++ rest) (cap q) (closed q)) ris rest).
    + simpl. unfold set_pending. simpl. do 3 f_equal.
      * apply insert_insert_eq.
      * rewrite <- app_assoc. reflexivity.
    + simpl. rewrite Hp. unfold int_sub. rewrite int_wrap_small; lia.
    + lia.
    + simpl. apply lookup_insert_eq.
    + reflexivity.
    + lia.
    + exact Hall.
Qed.

(** * Further properties of the code *)

(** ** A synchronous call and the owner loop *)

Lemma world_ext (w w' : world) :
  srv w = srv w' -> heap w = heap w' -> log w = log w' -> w = w'.
Proof. destruct w, w'. simpl. intros -> -> ->. reflexivity. Qed.

Lemma idle_spec {A} (c : chan A) :
  idle c = true -> c = mkChan [] (cap c) false /\ has_room c = true.
Proof.
  unfold idle, has_room. destruct c as [b n cl]. simpl.
  destruct b; [|discriminate]. destruct cl; [discriminate|]. auto.
Qed.

Lemma recv_after_deliver ch ri q0 w :
  heap w !! ch = Some q0 -> idle q0 = true ->
  recv_ret ch (deliver ch ri w) = Done (Some ri) w.
Proof.
  intros Hq Hidle. destruct (idle_spec _ Hidle) as [Hq0 _].
  unfold recv_ret, deliver. rewrite Hq. simpl. rewrite lookup_insert_eq.
  rewrite Hq0. unfold chan_recv, pushed. simpl. f_equal.
  apply world_ext; try reflexivity. simpl.
  rewrite insert_insert_eq. apply insert_id. rewrite Hq, Hq0. reflexivity.
Qed.

Section RoundTrip.

Variable E : env.

Lemma ran_log ci w :
  log (ran E ci w)
  = log w ++ match body_result E ci with
             | Some _ => [Ran (ci_f ci) (ci_args ci)]
             | None => []
             end.
Proof.
  unfold ran. destruct (body_result E ci); simpl;
    [reflexivity|rewrite app_nil_r; reflexivity].
Qed.

(** The owner loop's turn on a queue that holds the one envelope just
    pushed: the envelope is executed and answered, and the queue is as
    before the push. *)
Lemma owner_turn_one ci ch q0 w :
  idle (ChanCall (srv w)) = true ->
  ci_chanRet ci = Some ch -> heap w !! ch = Some q0 -> has_room q0 = true ->
  owner_turn E (set_ChanCall (pushed ci (ChanCall (srv w))) w)
  = deliver ch (reply E ci) (ran E ci w).
Proof.
  intros Hidle Hch Hq Hroom. destruct (idle_spec _ Hidle) as [Hcc _].
  unfold owner_turn. simpl. rewrite Hcc. unfold chan_recv, pushed. simpl.
  set (w1 := set_ChanCall _ _).
  assert (Hw1 : w1 = w).
  { apply world_ext; try reflexivity. unfold w1. simpl.
    destruct w as [[fs cc] h l]. simpl in *. rewrite <- Hcc. reflexivity. }
  rewrite Hw1. rewrite (Exec_room E _ _ _ _ Hch Hq Hroom). reflexivity.
Qed.

(** The last turn of the owner thread on the same queue: [Close] answers
    the envelope without running it and leaves the queue closed. *)
Lemma close_turn_one ci ch q0 w :
  idle (ChanCall (srv w)) = true ->
  ci_chanRet ci = Some ch -> heap w !! ch = Some q0 -> has_room q0 = true ->
  close_turn (set_ChanCall (pushed ci (ChanCall (srv w))) w)
  = deliver ch (closed_reply ci)
      (set_ChanCall (mkChan [] (cap (ChanCall (srv w))) true) w).
Proof.
  intros Hidle Hch Hq Hroom. destruct (idle_spec _ Hidle) as [Hcc _].
  unfold close_turn, Server_Close. simpl. rewrite Hcc. simpl.
  unfold bind at 1. simpl. unfold bind at 1.
  set (w1 := set_ChanCall _ _).
  assert (Hq1 : heap w1 !! ch = Some q0) by exact Hq.
  rewrite (Server_ret_room ci _ ch q0 w1 Hch Hq1 Hroom). reflexivity.
Qed.

Lemma Call0_served c id args q0 w :
  idle (ChanCall (srv w)) = true ->
  heap w !! chanSyncRet c = Some q0 -> idle q0 = true ->
  resolves FuncNone id w = true ->
  Call0 E (owner_turn E) c id args w
  = Done (ri_err (reply E (mkCallInfo (lookup_func id w) args
                             (Some (chanSyncRet c)) VNil)))
         (ran E (mkCallInfo (lookup_func id w) args (Some (chanSyncRet c)) VNil) w).
Proof.
  intros Hidle Hq Hq0 Hres.
  destruct (idle_spec _ Hidle) as [_ Hroom]. destruct (idle_spec _ Hq0) as [_ Hroom0].
  unfold Call0, bind at 1. change 0%Z with (arity FuncNone).
  rewrite (Client_f_resolves E FuncNone _ _ eq_refl Hres). simpl.
  unfold bind at 1. rewrite (Client_call_room _ _ _ Hroom).
  unfold bind at 1, yield.
  rewrite (owner_turn_one
               (mkCallInfo (lookup_func id w) args (Some (chanSyncRet c)) VNil)
               (chanSyncRet c) q0 w Hidle eq_refl Hq Hroom0).
  unfold bind at 1.
  rewrite (recv_after_deliver _ _ q0); [reflexivity| |exact Hq0].
  rewrite ran_heap. exact Hq.
Qed.

Lemma Call1_served c id args q0 w :
  idle (ChanCall (srv w)) = true ->
  heap w !! chanSyncRet c = Some q0 -> idle q0 = true ->
  resolves FuncOne id w = true ->
  Call1 E (owner_turn E) c id args w
  = Done (ri_ret (reply E (mkCallInfo (lookup_func id w) args
                             (Some (chanSyncRet c)) VNil)),
          ri_err (reply E (mkCallInfo (lookup_func id w) args
                             (Some (chanSyncRet c)) VNil)))
         (ran E (mkCallInfo (lookup_func id w) args (Some (chanSyncRet c)) VNil) w).
Proof.
  intros Hidle Hq Hq0 Hres.
  destruct (idle_spec _ Hidle) as [_ Hroom]. destruct (idle_spec _ Hq0) as [_ Hroom0].
  unfold Call1, bind at 1. change 1%Z with (arity FuncOne).
  rewrite (Client_f_resolves E FuncOne _ _ eq_refl Hres). simpl.
  unfold bind at 1. rewrite (Client_call_room _ _ _ Hroom).
  unfold bind at 1, yield.
  rewrite (owner_turn_one
               (mkCallInfo (lookup_func id w) args (Some (chanSyncRet c)) VNil)
               (chanSyncRet c) q0 w Hidle eq_refl Hq Hroom0).
  unfold bind at 1.
  rewrite (recv_after_deliver _ _ q0); [reflexivity| |exact Hq0].
  rewrite ran_heap. exact Hq.
Qed.

(** A synchronous call of a registered operation, on an idle Server whose
    owner loop takes its turn while the caller waits.  [Call0] and [Call1]
    return what the operation did: its value with a nil error when the
    body returns, a nil value with the error of the fault when it panics.
    Afterwards the queue and the Client's channel are empty again and the
    log has the one run of the body more. *)
Theorem sync_call_round_trip (c : Client) (id : ident) (args : list value)
    (p : nat) (q0 : chan RetInfo) (w : world) :
  idle (ChanCall (srv w)) = true ->
  heap w !! chanSyncRet c = Some q0 -> idle q0 = true ->
  (lookup_func id w = VFunc FuncNone p ->
   Call0 E (owner_turn E) c id args w
   = Done (match body0 E p args with
           | Returns _ => None
           | Panics r =>
               Some (fault_error E
                       (mkCallInfo (VFunc FuncNone p) args (Some (chanSyncRet c)) VNil)
                       r)
           end)
          (add_log (Ran (VFunc FuncNone p) args) w)) /\
  (lookup_func id w = VFunc FuncOne p ->
   Call1 E (owner_turn E) c id args w
   = Done (match body1 E p args with
           | Returns v => (v, None)
           | Panics r =>
               (VNil,
                Some (fault_error E
                        (mkCallInfo (VFunc FuncOne p) args (Some (chanSyncRet c)) VNil)
                        r))
           end)
          (add_log (Ran (VFunc FuncOne p) args) w)).
Proof.
  intros Hidle Hq Hq0. split; intros Hf.
  - rewrite (Call0_served c id args q0 w Hidle Hq Hq0)
      by (unfold resolves; rewrite Hf; reflexivity).
    rewrite Hf. unfold reply, ran, caught, body_result. simpl.
    destruct (body0 E p args) as [[]|r]; reflexivity.
  - rewrite (Call1_served c id args q0 w Hidle Hq Hq0)
      by (unfold resolves; rewrite Hf; reflexivity).
    rewrite Hf. unfold reply, ran, caught, body_result. simpl.
    destruct (body1 E p args) as [v|r]; reflexivity.
Qed.

(** [CallN] in the same situation, when the body returns: the sequence and
    a nil error. *)
Theorem CallN_round_trip (c : Client) (id : ident) (args : list value)
    (p : nat) (ret : list value) (q0 : chan RetInfo) (w : world) :
  idle (ChanCall (srv w)) = true ->
  heap w !! chanSyncRet c = Some q0 -> idle q0 = true ->
  lookup_func id w = VFunc FuncSeq p ->
  bodyN E p args = Returns ret ->
  CallN E (owner_turn E) c id args w
  = Done (ret, None) (add_log (Ran (VFunc FuncSeq p) args) w).
Proof.
  intros Hidle Hq Hq0 Hf Hbody.
  destruct (idle_spec _ Hidle) as [_ Hroom]. destruct (idle_spec _ Hq0) as [_ Hroom0].
  assert (Hres : resolves FuncSeq id w = true)
    by (unfold resolves; rewrite Hf; reflexivity).
  unfold CallN, bind at 1. change 2%Z with (arity FuncSeq).
  rewrite (Client_f_resolves E FuncSeq _ _ eq_refl Hres). simpl.
  unfold bind at 1. rewrite (Client_call_room _ _ _ Hroom).
  unfold bind at 1, yield.
  rewrite (owner_turn_one
               (mkCallInfo (lookup_func id w) args (Some (chanSyncRet c)) VNil)
               (chanSyncRet c) q0 w Hidle eq_refl Hq Hroom0).
  unfold bind at 1.
  rewrite (recv_after_deliver _ _ q0); [| |exact Hq0].
  2:{ rewrite ran_heap. exact Hq. }
  rewrite Hf. unfold reply, ran, caught, body_result. simpl. rewrite Hbody.
  reflexivity.
Qed.

(** A synchronous call that is still queued when the owner thread closes
    the Server: [Call0] and [Call1] return the error "chanrpc server
    closed", the operation did not run, and the queue is closed. *)
Theorem sync_call_answered_by_Close (c : Client) (id : ident)
    (args : list value) (q0 : chan RetInfo) (w : world) :
  idle (ChanCall (srv w)) = true ->
  heap w !! chanSyncRet c = Some q0 -> idle q0 = true ->
  (resolves FuncNone id w = true ->
   Call0 E close_turn c id args w
   = Done (Some "chanrpc server closed")
          (set_ChanCall (mkChan [] (cap (ChanCall (srv w))) true) w)) /\
  (resolves FuncOne id w = true ->
   Call1 E close_turn c id args w
   = Done (VNil, Some "chanrpc server closed")
          (set_ChanCall (mkChan [] (cap (ChanCall (srv w))) true) w)).
Proof.
  intros Hidle Hq Hq0.
  destruct (idle_spec _ Hidle) as [_ Hroom]. destruct (idle_spec _ Hq0) as [_ Hroom0].
  split; intros Hres.
  - unfold Call0, bind at 1. change 0%Z with (arity FuncNone).
    rewrite (Client_f_resolves E FuncNone _ _ eq_refl Hres). simpl.
    unfold bind at 1. rewrite (Client_call_room _ _ _ Hroom).
    unfold bind at 1, yield.
    rewrite (close_turn_one
                 (mkCallInfo (lookup_func id w) args (Some (chanSyncRet c)) VNil)
                 (chanSyncRet c) q0 w Hidle eq_refl Hq Hroom0).
    unfold bind at 1.
    rewrite (recv_after_deliver _ _ q0); [reflexivity|exact Hq|exact Hq0].
  - unfold Call1, bind at 1. change 1%Z with (arity FuncOne).
    rewrite (Client_f_resolves E FuncOne _ _ eq_refl Hres). simpl.
    unfold bind at 1. rewrite (Client_call_room _ _ _ Hroom).
    unfold bind at 1, yield.
    rewrite (close_turn_one
                 (mkCallInfo (lookup_func id w) args (Some (chanSyncRet c)) VNil)
                 (chanSyncRet c) q0 w Hidle eq_refl Hq Hroom0).
    unfold bind at 1.
    rewrite (recv_after_deliver _ _ q0); [reflexivity|exact Hq|exact Hq0].
Qed.

End RoundTrip.

(** ** The push of a synchronous call *)

Section SyncPush.

Variable E : env.

(** On a closed Call Queue a synchronous call whose id resolves returns the
    runtime's error of the send, recovered by [call]: it does not panic,
    and nothing changed, whatever the other threads would do. *)
Theorem sync_call_on_closed_queue (sched : world -> world) (c : Client)
    (id : ident) (args : list value) (w : world) :
  closed (ChanCall (srv w)) = true ->
  (resolves FuncNone id w = true ->
   Call0 E sched c id args w = Done (Some "send on closed channel") w) /\
  (resolves FuncOne id w = true ->
   Call1 E sched c id args w = Done (VNil, Some "send on closed channel") w) /\
  (resolves FuncSeq id w = true ->
   CallN E sched c id args w = Done ([], Some "send on closed channel") w).
Proof.
  intros Hcl. split; [|split]; intros Hres.
  - unfold Call0, bind at 1. change 0%Z with (arity FuncNone).
    rewrite (Client_f_resolves E FuncNone _ _ eq_refl Hres). simpl.
    unfold bind. rewrite (Client_call_closed _ _ _ Hcl). reflexivity.
  - unfold Call1, bind at 1. change 1%Z with (arity FuncOne).
    rewrite (Client_f_resolves E FuncOne _ _ eq_refl Hres). simpl.
    unfold bind. rewrite (Client_call_closed _ _ _ Hcl). reflexivity.
  - unfold CallN, bind at 1. change 2%Z with (arity FuncSeq).
    rewrite (Client_f_resolves E FuncSeq _ _ eq_refl Hres). simpl.
    unfold bind. rewrite (Client_call_closed _ _ _ Hcl). reflexivity.
Qed.


End SyncPush.

(** ** The Server's own calls *)


(** [Close] is for one use: once it has returned, a second [Close] panics
    on the closed queue and changes nothing. *)
Theorem Server_Close_twice (w w' : world) :
  Server_Close w = Done tt w' ->
  Server_Close w' = Panic (FErr "close of closed channel") w'.
Proof.
  intros Hd. destruct (Server_Close_effect _ _ Hd) as (Hs & _).
  unfold Server_Close. rewrite Hs. reflexivity.
Qed.


(** ** Registering, then resolving *)

Section Resolve.

Variable E : env.

(** Once [Register] has returned, the id resolves to the function for the
    function's own shape and fails with the type mismatch for the two
    other shapes, and every other id resolves as before. *)
Theorem Register_then_resolve (id : ident) (t : functype) (p : nat)
    (w w' : world) :
  Register E id (VFunc t p) w = Done tt w' ->
  Client_f E id (arity t) w' = Done (VFunc t p, None) w' /\
  (forall t', is_operation (VFunc t' 0) = true -> t' <> t ->
     Client_f E id (arity t') w'
     = Done (VFunc t p, Some (type_mismatch E id)) w') /\
  (forall id', id' <> id -> lookup_func id' w' = lookup_func id' w).
Proof.
  unfold Register. intros H.
  assert (Hop : is_operation (VFunc t 0) = true)
    by (destruct t; try discriminate H; reflexivity).
  assert (Hw' : w' = set_functions (<[id := VFunc t p]> (functions (srv w))) w).
  { destruct t; try discriminate H;
      destruct (functions (srv w) !! id); try discriminate H;
      injection H as <-; reflexivity. }
  assert (Hl : lookup_func id w' = VFunc t p).
  { rewrite Hw'. unfold lookup_func. simpl. rewrite lookup_insert_eq. reflexivity. }
  split; [|split].
  - rewrite (Client_f_resolves E t id w' Hop); [rewrite Hl; reflexivity|].
    unfold resolves. rewrite Hl. destruct t; try discriminate Hop; reflexivity.
  - intros t' Hop' Hne.
    rewrite (Client_f_unresolved E t' id w' Hop').
    + unfold resolution_error. rewrite Hl. reflexivity.
    + unfold resolves. rewrite Hl.
      destruct t, t'; try discriminate Hop; try discriminate Hop';
        try reflexivity; congruence.
  - intros id' Hne. rewrite Hw'. unfold lookup_func. simpl.
    rewrite lookup_insert_ne by congruence. reflexivity.
Qed.

(** [AsynCall] without arguments, or with a last argument that is no
    callback of the three shapes, panics before it looks the id up: the
    world is as it was and no callback was called. *)
Theorem AsynCall_configuration_faults (c : Client) (id : ident) (w : world) :
  AsynCall E c id [] w = Panic (FStr "callback function not found") w /\
  (forall args cb, requested cb = None ->
     AsynCall E c id (args ++ [cb]) w
     = Panic (FStr "definition of callback function is invalid") w).
Proof.
  split; [reflexivity|].
  intros args cb Hreq.
  destruct (AsynCall_arguments args cb) as (Hlen & Hargs & Hlast).
  unfold AsynCall. rewrite Hlen, Hlast.
  destruct cb as [| | | | |[] q]; try discriminate; reflexivity.
Qed.

End Resolve.

(** ** What Exec delivers when the body returns *)

Section ExecResult.

Variable E : env.



End ExecResult.

(** ** Closing the Client, continued *)

(** With [n] calls pending and the Return Envelopes of the asynchronous
    channel starting with [n] callable ones, [Close] returns with the
    counter at 0: it received these [n] envelopes, left the rest, and
    called the [n] callbacks once each, in the order of the channel. *)
Theorem Client_Close_drains (c : Client) (w : world) (q : chan RetInfo)
    (ris rest : list RetInfo) :
  pendingAsynCall c = Z.of_nat (length ris) ->
  (Z.of_nat (length ris) < 2 ^ 63)%Z ->
  heap w !! ChanAsynRet c = Some q -> buf q = ris ++ rest ->
  forallb callable ris = true ->
  Client_Close c w
  = Some (Done (set_pending 0 c)
            (mkWorld (srv w)
               (<[ChanAsynRet c := mkChan rest (cap q) (closed q)]> (heap w))
               (log w ++ List.map call_of ris))).
Proof.
  intros Hp Hlt Hq Hb Hall. unfold Client_Close. rewrite Hp, Nat2Z.id.
  exact (Close_loop_drains (length ris) c w q ris rest Hp Hlt Hq Hb eq_refl Hall).
Qed.


(** ** An asynchronous call and the owner loop *)

Section AsyncRoundTrip.

Variable E : env.


End AsyncRoundTrip.

(** ** The counter of pending calls *)





Lemma new_calls_pushed_log ci e w :
  new_calls w (add_log e (set_ChanCall (pushed ci (ChanCall (srv w))) w)) = [ci].
Proof. unfold new_calls. simpl. rewrite drop_app_length. reflexivity. Qed.


Section Counter.

Variable E : env.

(** A push of [call] that returns no error pushed the envelope; one that
    returns an error pushed nothing. *)
Lemma Client_call_detail ci block w e w' :
  Client_call ci block w = Done e w' ->
  (e = None /\ w' = set_ChanCall (pushed ci (ChanCall (srv w))) w) \/
  (e <> None /\ w' = w).
Proof.
  unfold Client_call, recover, bind, push_call_blocking, push_call, bind,
    assert_error, unit_, panic, send_on_closed, channel_full.
  destruct block; destruct (chan_send (ChanCall (srv w)) ci) as [q| |] eqn:Hs;
    intros [=]; subst; try (right; split; [discriminate|reflexivity]).
  all: left; split; [reflexivity|];
    unfold chan_send in Hs; destruct (closed (ChanCall (srv w))) eqn:Hcl;
    [discriminate|]; destruct (_ <? _)%nat; [|discriminate];
    injection Hs as <-; unfold pushed; rewrite Hcl; reflexivity.
Qed.

Lemma asynCall_detail c id args cb n w ce w' :
  asynCall E c id args cb n w = Done ce w' ->
  (fst ce = c /\ w' = w) \/
  (exists f,
     fst ce = set_pending (int_add (pendingAsynCall c) 1) c /\
     w' = set_ChanCall
            (pushed (mkCallInfo f args (Some (ChanAsynRet c)) cb) (ChanCall (srv w)))
            w /\
     snd ce = None).
Proof.
  unfold asynCall. unfold bind at 1.
  destruct (Client_f E id n w) as [fe w1|r w1|w1] eqn:Hf; try discriminate.
  apply Client_f_effect in Hf. subst w1.
  destruct (snd fe).
  - intros [=]; subst. left. auto.
  - unfold bind.
    destruct (Client_call _ false w) as [e w1|r w1|w1] eqn:Hc; try discriminate.
    apply Client_call_detail in Hc.
    destruct Hc as [[-> ->]|[Hne ->]].
    + intros [=]; subst. right. eexists. simpl. auto.
    + destruct e; [|congruence]. intros [=]; subst. left. auto.
Qed.












End Counter.

(** ** What the counter and the registry are, in every reachable state *)

Section Outstanding.

Variable E : env.


Lemma AsynCall_registry c id _args w c' w' :
  AsynCall E c id _args w = Done c' w' ->
  functions (srv w') = functions (srv w).
Proof.
  unfold AsynCall. destruct (_ <? 1)%nat; [discriminate|].
  destruct (List.last _args VNil) as [| | | | |[] p]; try discriminate;
    unfold bind at 1;
    destruct (asynCall E c id _ _ _ w) as [ce w1|r w1|w1] eqn:Ha;
    try discriminate;
    apply asynCall_detail in Ha;
    (destruct Ha as [[_ ->]|(f & _ & -> & _)];
     destruct (snd ce); unfold bind, invoke, unit_; intros [=]; subst;
     reflexivity).
Qed.

Lemma Go_registry id args w w' :
  Go id args w = Done tt w' -> functions (srv w') = functions (srv w).
Proof.
  unfold Go.
  destruct (lookup_func id w) eqn:Hf; try (intros [=]; subst; reflexivity).
  all: unfold recover, push_call_blocking, bind, push_call, unit_;
    destruct (chan_send (ChanCall (srv w)) _) as [q| |] eqn:Hs;
    intros [=]; subst; reflexivity.
Qed.

(** No step of a Client, of the owner loop or of [Go] writes the registry:
    after the registrations it is read only. *)
Theorem registry_is_stable (s s' : system) :
  step E s s' ->
  functions (srv (now s')) = functions (srv (now s)).
Proof.
  intros Hst. destruct Hst as
    [s l c w' Ho|s k c id _args c' w' Hk Ha|s k c id n args f w' Hk Hf Hc
    |s k c ri w' Hk Hr|s k c ri w1 c' w' Hk Hr Hcb|s id args w' Hg
    |s ci q Ho Hr|s ci err w' Ho He|s w' Ho Hd]; simpl.
  - apply Open_effect in Ho. destruct Ho as [-> _]. reflexivity.
  - exact (AsynCall_registry _ _ _ _ _ _ Ha).
  - apply Client_call_detail in Hc. destruct Hc as [[_ ->]|[_ ->]]; reflexivity.
  - apply recv_ret_effect in Hr. destruct Hr as [-> _]. reflexivity.
  - apply recv_ret_effect in Hr. destruct Hr as [Hs _].
    apply Cb_effect in Hcb. destruct Hcb as [-> _]. rewrite Hs. reflexivity.
  - exact (Go_registry _ _ _ _ Hg).
  - reflexivity.
  - apply Exec_effect in He. destruct He as [-> _]. reflexivity.
  - apply Server_Close_effect in Hd. destruct Hd as [-> _]. reflexivity.
Qed.

End Outstanding.

(** ** The further properties on the small program *)

Lemma sync_call_round_trip_witness :
  Call0 demo_env (owner_turn demo_env) demo_client (IdStr "tick") [] demo_world
  = Done None (add_log (Ran (VFunc FuncNone 0) []) demo_world) /\
  Call1 demo_env (owner_turn demo_env) demo_client (IdStr "add") [VInt 2; VInt 3]
        demo_world
  = Done (VInt 5, None)
         (add_log (Ran (VFunc FuncOne 0) [VInt 2; VInt 3]) demo_world) /\
  Call1 demo_env (owner_turn demo_env) demo_client (IdStr "add") [] demo_world
  = Done (VNil, Some "runtime error: index out of range: goro")
         (add_log (Ran (VFunc FuncOne 0) []) demo_world).
Proof.
  split; [|split].
  - exact (proj1 (sync_call_round_trip demo_env demo_client (IdStr "tick") [] 0
                    (mkChan [] 1 false) demo_world eq_refl eq_refl eq_refl)
             eq_refl).
  - exact (proj2 (sync_call_round_trip demo_env demo_client (IdStr "add")
                    [VInt 2; VInt 3] 0 (mkChan [] 1 false) demo_world
                    eq_refl eq_refl eq_refl) eq_refl).
  - exact (proj2 (sync_call_round_trip demo_env demo_client (IdStr "add")
                    [] 0 (mkChan [] 1 false) demo_world
                    eq_refl eq_refl eq_refl) eq_refl).
Defined.

Lemma CallN_round_trip_witness :
  CallN demo_env (owner_turn demo_env) demo_client (IdStr "list") [VInt 7]
        demo_world
  = Done ([VInt 7], None) (add_log (Ran (VFunc FuncSeq 0) [VInt 7]) demo_world).
Proof.
  exact (CallN_round_trip demo_env demo_client (IdStr "list") [VInt 7] 0 [VInt 7]
           (mkChan [] 1 false) demo_world eq_refl eq_refl eq_refl eq_refl eq_refl).
Defined.

Lemma sync_call_answered_by_Close_witness :
  Call0 demo_env close_turn demo_client (IdStr "tick") [] demo_world
  = Done (Some "chanrpc server closed") closed_world /\
  Call1 demo_env close_turn demo_client (IdStr "add") [VInt 2; VInt 3] demo_world
  = Done (VNil, Some "chanrpc server closed") closed_world.
Proof.
  split.
  - exact (proj1 (sync_call_answered_by_Close demo_env demo_client (IdStr "tick")
                    [] (mkChan [] 1 false) demo_world eq_refl eq_refl eq_refl)
             eq_refl).
  - exact (proj2 (sync_call_answered_by_Close demo_env demo_client (IdStr "add")
                    [VInt 2; VInt 3] (mkChan [] 1 false) demo_world
                    eq_refl eq_refl eq_refl) eq_refl).
Defined.

Lemma sync_call_on_closed_queue_witness :
  Call1 demo_env (owner_turn demo_env) demo_client (IdStr "add") [VInt 2; VInt 3]
        closed_world
  = Done (VNil, Some "send on closed channel") closed_world.
Proof.
  exact (proj1 (proj2 (sync_call_on_closed_queue demo_env (owner_turn demo_env)
                         demo_client (IdStr "add") [VInt 2; VInt 3] closed_world
                         eq_refl)) eq_refl).
Defined.


Lemma Server_Close_twice_witness :
  Server_Close busy_world = Done tt (close_turn busy_world) /\
  Server_Close (close_turn busy_world)
  = Panic (FErr "close of closed channel") (close_turn busy_world).
Proof.
  assert (H : Server_Close busy_world = Done tt (close_turn busy_world))
    by (vm_compute; reflexivity).
  split; [exact H|].
  exact (Server_Close_twice busy_world (close_turn busy_world) H).
Defined.

Lemma Register_then_resolve_witness :
  Register demo_env (IdStr "new") (VFunc FuncOne 5) demo_world
  = Done tt (set_functions (<[IdStr "new" := VFunc FuncOne 5]> demo_functions)
               demo_world) /\
  Client_f demo_env (IdStr "new") 1
    (set_functions (<[IdStr "new" := VFunc FuncOne 5]> demo_functions) demo_world)
  = Done (VFunc FuncOne 5, None)
      (set_functions (<[IdStr "new" := VFunc FuncOne 5]> demo_functions) demo_world).
Proof.
  split; [reflexivity|].
  exact (proj1 (Register_then_resolve demo_env (IdStr "new") FuncOne 5 demo_world
                  _ eq_refl)).
Defined.


Lemma Client_Close_drains_witness :
  Client_Close waiting_client waiting_world
  = Some (Done (mkClient 0 1 0)
            (mkWorld (srv demo_world)
               (<[1%nat := mkChan [] 2 false]> (heap waiting_world))
               [Called (VFunc CbOne 10) (Some (VInt 3)) None;
                Called (VFunc CbErr 11) None (Some "boom: goro")])).
Proof.
  exact (Client_Close_drains waiting_client waiting_world
           (mkChan [mkRetInfo (VInt 3) None (VFunc CbOne 10);
                    mkRetInfo VNil (Some "boom: goro") (VFunc CbErr 11)] 2 false)
           [mkRetInfo (VInt 3) None (VFunc CbOne 10);
            mkRetInfo VNil (Some "boom: goro") (VFunc CbErr 11)]
           [] eq_refl eq_refl eq_refl eq_refl eq_refl).
Defined.




Lemma step_do_Exec (E : env) (s : system) :
  (exists ci err w', owner s = Some ci /\ Exec E ci (now s) = Done err w') ->
  step E s (do_Exec E s).
Proof.
  intros (ci & err & w' & Ho & He). unfold do_Exec. rewrite Ho, He.
  exact (step_Exec E s ci err w' Ho He).
Defined.

(** The state of the schedule in which the owner loop holds the first
    envelope, before it executes it. *)
Lemma registry_is_stable_witness :
  step demo_env
    (do_receive
       (do_AsynCall demo_env 0 (IdStr "add") [VInt 1; VInt 2; VFunc CbOne 10]
          (do_Open 2 fifo_start)))
    (do_Exec demo_env
       (do_receive
          (do_AsynCall demo_env 0 (IdStr "add") [VInt 1; VInt 2; VFunc CbOne 10]
             (do_Open 2 fifo_start)))) /\
  functions
    (srv (now (do_Exec demo_env
                 (do_receive
                    (do_AsynCall demo_env 0 (IdStr "add")
                       [VInt 1; VInt 2; VFunc CbOne 10] (do_Open 2 fifo_start))))))
  = demo_functions.
Proof.
  assert (H : step demo_env
    (do_receive
       (do_AsynCall demo_env 0 (IdStr "add") [VInt 1; VInt 2; VFunc CbOne 10]
          (do_Open 2 fifo_start)))
    (do_Exec demo_env
       (do_receive
          (do_AsynCall demo_env 0 (IdStr "add") [VInt 1; VInt 2; VFunc CbOne 10]
             (do_Open 2 fifo_start))))).
  { apply step_do_Exec. eexists _, _, _. split; vm_compute; reflexivity. }
  split; [exact H|].
  rewrite (registry_is_stable demo_env _ _ H). vm_compute. reflexivity.
Defined.
